(** * The Verilator testbench driver of PIM_NN, [hardware/detailed/tb/tb_driver.cpp]

    The driver's [main] opens a VCD trace, then loops until the simulation
    context reports [$finish]: each iteration advances simulated time by 5 ps,
    toggles [clk], evaluates the design and dumps a sample, twice.  After the
    loop it closes the trace and returns 0.

    The development embeds [main] as a small-step machine whose program
    points are the statements of the source, and proves the properties of the
    driving loop over every reachable configuration.  The construction of
    the context, the model and the trace object (lines 9-17), the two
    messages on [std::cout] (lines 20, 41) and the two [delete]s (lines 45,
    46) are not program points: none of them touches simulated time, the
    clock, the trace or the completion flag. *)

From Stdlib Require Import ZArith List Bool Lia Sorted.
Import ListNotations.
Local Open Scope Z_scope.

Set Implicit Arguments.

(** ** The simulation context

    Modelled from the spec: [verilated.h], which declares [VerilatedContext],
    is not part of the repository.  The spec's data model gives simulated
    time as an integer counter starting at 0 that only [timeInc] advances,
    and the completion predicate as a flag of the run context. *)
Record VerilatedContext : Type := mkContext {
  time : Z;
  gotFinish : bool
}.

(** [contextp->timeInc(add)] *)
Definition timeInc (add : Z) (ctx : VerilatedContext) : VerilatedContext :=
  mkContext (time ctx + add) (gotFinish ctx).

(** ** Calls made by the driver on its collaborators, in program order *)
Inductive Call : Type :=
| COpen                 (* tfp->open("pim_system_tb.vcd") *)
| CGotFinish (b : bool) (* contextp->gotFinish(), with the value read *)
| CTimeInc (add : Z)    (* contextp->timeInc(add) *)
| CClk (b : bool)       (* top->clk = b *)
| CEval                 (* top->eval() *)
| CDump (t : Z)         (* tfp->dump(t) *)
| CClose.               (* tfp->close() *)

Definition is_open (c : Call) : bool := match c with COpen => true | _ => false end.
Definition is_inc (c : Call) : bool := match c with CTimeInc _ => true | _ => false end.
Definition is_clk (c : Call) : bool := match c with CClk _ => true | _ => false end.
Definition is_eval (c : Call) : bool := match c with CEval => true | _ => false end.
Definition is_dump (c : Call) : bool := match c with CDump _ => true | _ => false end.
Definition is_close (c : Call) : bool := match c with CClose => true | _ => false end.

Fixpoint count (p : Call -> bool) (l : list Call) : nat :=
  match l with
  | [] => 0
  | c :: l' => (if p c then 1 else 0) + count p l'
  end.

(** For every [gotFinish] read in a call log, the number of dumps made
    before it. *)
Fixpoint check_points (seen : nat) (l : list Call) : list nat :=
  match l with
  | [] => []
  | CGotFinish _ :: l' => seen :: check_points seen l'
  | CDump _ :: l' => check_points (S seen) l'
  | _ :: l' => check_points seen l'
  end.

(** Dropping immediate repetitions from a list of time values. *)
Fixpoint compress (l : list Z) : list Z :=
  match l with
  | [] => []
  | x :: l' =>
      match l' with
      | [] => [x]
      | y :: _ => if Z.eqb x y then compress l' else x :: compress l'
      end
  end.

(** ** Program points of [main] *)
Inductive Phase : Type := First | Second.
Inductive Stage : Type := Inc | Toggle | Eval | Dump.

Inductive Pc : Type :=
| AtOpen                          (* line 18: tfp->open(...) *)
| LoopHead                        (* line 23: while (!contextp->gotFinish()) *)
| Body (h : Phase) (s : Stage)    (* lines 26,28,30,32 and 35,36,37,38 *)
| AtClose                         (* line 44: tfp->close() *)
| AtReturn                        (* line 47: return 0 *)
| Exited (status : Z)             (* main has returned *)
| Aborted.                        (* the process died inside top->eval() *)

(** ** Bookkeeping on program points

    How many time advancements, clock writes and evaluations have been made
    since the last dump, and whether the trace file is open. *)
Definition after_inc (p : Pc) : nat :=
  match p with
  | Body _ Inc => 0
  | Body _ _ => 1
  | Aborted => 1
  | _ => 0
  end.

Definition after_clk (p : Pc) : nat :=
  match p with
  | Body _ Eval | Body _ Dump | Aborted => 1
  | _ => 0
  end.

Definition after_eval (p : Pc) : nat :=
  match p with
  | Body _ Dump | Aborted => 1
  | _ => 0
  end.

Definition sink_open (p : Pc) : bool :=
  match p with
  | AtOpen | AtReturn | Exited _ => false
  | _ => true
  end.

Definition closes_made (p : Pc) : nat :=
  match p with
  | AtReturn | Exited _ => 1
  | _ => 0
  end.

(** ** Order of the calls

    [may_follow a b]: call [b] may come directly after call [a]. *)
Definition may_follow (a b : Call) : bool :=
  match a, b with
  | COpen, CGotFinish _ => true
  | CGotFinish b, CTimeInc q => negb b && Z.eqb q 5
  | CGotFinish b, CClose => b
  | CTimeInc q, CClk _ => Z.eqb q 5
  | CClk _, CEval => true
  | CEval, CDump _ => true
  | CDump _, CTimeInc q => Z.eqb q 5
  | CDump _, CGotFinish _ => true
  | _, _ => false
  end.

Fixpoint chain (l : list Call) : bool :=
  match l with
  | [] => true
  | a :: l' =>
      match l' with
      | [] => true
      | b :: _ => may_follow a b && chain l'
      end
  end.

Fixpoint last_call (l : list Call) : option Call :=
  match l with
  | [] => None
  | c :: l' =>
      match l' with
      | [] => Some c
      | _ :: _ => last_call l'
      end
  end.

(** The call that brought [main] to program point [p]. *)
Definition arrived_by (p : Pc) (last : option Call) : bool :=
  match p, last with
  | AtOpen, None => true
  | LoopHead, Some COpen => true
  | LoopHead, Some (CDump _) => true
  | Body First Inc, Some (CGotFinish false) => true
  | Body Second Inc, Some (CDump _) => true
  | Body _ Toggle, Some (CTimeInc q) => Z.eqb q 5
  | Body _ Eval, Some (CClk _) => true
  | Body _ Dump, Some CEval => true
  | Aborted, Some CEval => true
  | AtClose, Some (CGotFinish true) => true
  | AtReturn, Some CClose => true
  | Exited _, Some CClose => true
  | _, _ => false
  end.

Definition stage_index (s : Stage) : nat :=
  match s with Inc => 0 | Toggle => 1 | Eval => 2 | Dump => 3 end.

(** Simulated time after [n] statements of a run that is still in the
    loop: [10] per completed iteration, plus [5] once the first half's
    advancement is made and [10] once the second's is. *)
Definition scheduled_time (n : nat) : Z :=
  let i := (n - 1)%nat in
  10 * Z.of_nat (i / 9)
  + (if (i mod 9 <=? 1)%nat then 0 else if (i mod 9 <=? 5)%nat then 5 else 10).

(** Simulated time after [i] statements of a run that leaves the loop at
    its [k+1]-th loop head. *)
Definition exit_schedule (k i : nat) : Z :=
  if (i =? 0)%nat then 0
  else if (i <=? 1 + 9 * k)%nat then scheduled_time i
  else 10 * Z.of_nat k.

Definition is_check (c : Call) : bool :=
  match c with CGotFinish _ => true | _ => false end.

Section Driver.

(** The design under test is opaque: [Design] is the state of its internal
    signals. *)
Variable Design : Type.

(** [Vtb_pim_system]: the clock input port and the design's signals.

    Modelled from the spec: [Vtb_pim_system.h] is generated from the design
    and is not among the driver's sources.  The spec gives the model as a
    black box with a settle operation, a clock input written by the driver
    only, and signals read by the trace recorder. *)
Record Vtb_pim_system : Type := mkTop {
  clk : bool;
  design : Design
}.

(** What [top->eval()] can do: settle the design's signals and leave the
    context's finish flag at [finish] (a [$finish] sets it), or abort the
    process.  The input port [clk] and simulated time are read, never
    written, by the generated model. *)
Inductive EvalResult : Type :=
| Settled (d : Design) (finish : bool)
| Fatal.

Variable eval : VerilatedContext -> Vtb_pim_system -> EvalResult.

(** A waveform sample: timestamp and the snapshot of the model. *)
Record Sample : Type := mkSample {
  stamp : Z;
  snap : Vtb_pim_system
}.

(** [VerilatedVcdC]: the trace file, an append-only list of samples.

    Modelled from the spec: [verilated_vcd_c.h] is not among the driver's
    sources.  The spec gives the sink as a resource that is opened, to which
    a sample is appended under the currently open sink, and that is closed. *)
Record VerilatedVcdC : Type := mkVcd {
  isOpen : bool;
  samples : list Sample
}.

Definition open (f : VerilatedVcdC) : VerilatedVcdC := mkVcd true (samples f).

Definition dump (t : Z) (m : Vtb_pim_system) (f : VerilatedVcdC) : VerilatedVcdC :=
  if isOpen f then mkVcd true (samples f ++ [mkSample t m]) else f.

Definition close (f : VerilatedVcdC) : VerilatedVcdC := mkVcd false (samples f).

(** A configuration of the running [main]: where it is, its three heap
    objects, and the calls it has made so far (oldest first). *)
Record Config : Type := mkConfig {
  pc : Pc;
  contextp : VerilatedContext;
  top : Vtb_pim_system;
  tfp : VerilatedVcdC;
  calls : list Call
}.

Definition next_stage (h : Phase) (s : Stage) : Pc :=
  match s, h with
  | Inc, _ => Body h Toggle
  | Toggle, _ => Body h Eval
  | Eval, _ => Body h Dump
  | Dump, First => Body Second Inc
  | Dump, Second => LoopHead
  end.

(** One statement of [main]. *)
Definition step (c : Config) : Config :=
  match pc c with
  | AtOpen =>
      mkConfig LoopHead (contextp c) (top c) (open (tfp c)) (calls c ++ [COpen])
  | LoopHead =>
      let b := gotFinish (contextp c) in
      mkConfig (if b then AtClose else Body First Inc)
               (contextp c) (top c) (tfp c) (calls c ++ [CGotFinish b])
  | Body h Inc =>
      mkConfig (next_stage h Inc) (timeInc 5 (contextp c)) (top c) (tfp c)
               (calls c ++ [CTimeInc 5])
  | Body h Toggle =>
      let b := negb (clk (top c)) in
      mkConfig (next_stage h Toggle) (contextp c) (mkTop b (design (top c))) (tfp c)
               (calls c ++ [CClk b])
  | Body h Eval =>
      match eval (contextp c) (top c) with
      | Settled d fin =>
          mkConfig (next_stage h Eval) (mkContext (time (contextp c)) fin)
                   (mkTop (clk (top c)) d) (tfp c) (calls c ++ [CEval])
      | Fatal =>
          mkConfig Aborted (contextp c) (top c) (tfp c) (calls c ++ [CEval])
      end
  | Body h Dump =>
      let t := time (contextp c) in
      mkConfig (next_stage h Dump) (contextp c) (top c) (dump t (top c) (tfp c))
               (calls c ++ [CDump t])
  | AtClose =>
      mkConfig AtReturn (contextp c) (top c) (close (tfp c)) (calls c ++ [CClose])
  | AtReturn =>
      mkConfig (Exited 0) (contextp c) (top c) (tfp c) (calls c)
  | Exited _ => c
  | Aborted => c
  end.

Fixpoint steps (n : nat) (c : Config) : Config :=
  match n with
  | O => c
  | S n' => step (steps n' c)
  end.

(** The state in which [main] reaches line 18: a fresh context at time 0, a
    freshly constructed model, an unopened trace.  The finish flag, the
    reset value of [clk] and the design's initial signals belong to the
    collaborators. *)
Variable finish0 : bool.
Variable clk0 : bool.
Variable design0 : Design.

Definition boot : Config :=
  mkConfig AtOpen (mkContext 0 finish0) (mkTop clk0 design0) (mkVcd false []) [].

(** [main] after [n] statements. *)
Definition main (n : nat) : Config := steps n boot.

(** Statement count at which the loop condition is read for the
    [k+1]-th time: one [open], then nine statements per iteration. *)
Definition head (k : nat) : nat := (1 + 9 * k)%nat.

Definition now (c : Config) : Z := time (contextp c).
Definition finished (c : Config) : bool := gotFinish (contextp c).
Definition recorded (c : Config) : list Sample := samples (tfp c).

Definition exited (c : Config) : bool :=
  match pc c with Exited _ => true | _ => false end.

Definition in_loop (c : Config) : bool :=
  match pc c with LoopHead | Body _ _ => true | _ => false end.

(** Control has left the [while] loop through its condition. *)
Definition left_loop (c : Config) : bool :=
  match pc c with AtClose | AtReturn | Exited _ => true | _ => false end.

(** Time values taken by the context during the first [n] statements. *)
Definition time_progress (n : nat) : list Z :=
  compress (map (fun i => now (main i)) (seq 0 (S n))).

(** ** Invariants of the run

    The counting invariant: calls made, samples recorded, time and clock
    level at every program point. *)
Record Inv (c : Config) : Prop := mkInv {
  inv_dump : count is_dump (calls c) = length (recorded c);
  inv_eval : count is_eval (calls c) = (length (recorded c) + after_eval (pc c))%nat;
  inv_clk : count is_clk (calls c) = (length (recorded c) + after_clk (pc c))%nat;
  inv_inc : count is_inc (calls c) = (length (recorded c) + after_inc (pc c))%nat;
  inv_time : now c = 5 * Z.of_nat (count is_inc (calls c));
  inv_level : clk (top c) = xorb clk0 (Nat.odd (count is_clk (calls c)));
  inv_sink : isOpen (tfp c) = sink_open (pc c);
  inv_parity :
    match pc c with
    | Body Second _ => Nat.odd (length (recorded c)) = true
    | Aborted => True
    | _ => Nat.even (length (recorded c)) = true
    end;
  inv_samples : forall k s, nth_error (recorded c) k = Some s ->
    stamp s = 5 * Z.of_nat (S k) /\ clk (snap s) = xorb clk0 (Nat.even k);
  inv_status : forall s, pc c = Exited s -> s = 0
}.

(** The shape of the call log. *)
Record Shape (c : Config) : Prop := mkShape {
  shape_chain : chain (calls c) = true;
  shape_last : arrived_by (pc c) (last_call (calls c)) = true;
  shape_open :
    match calls c with
    | [] => pc c = AtOpen
    | x :: t => x = COpen /\ count is_open t = 0%nat /\ pc c <> AtOpen
    end;
  shape_close : count is_close (calls c) = closes_made (pc c);
  shape_checks : Forall (fun k => Nat.even k = true) (check_points 0 (calls c))
}.

(** Statement counts.

    Where [main] is after [n] statements, as long as it is in the loop. *)
Definition Sched (n : nat) (c : Config) : Prop :=
  match pc c with
  | AtOpen => n = 0%nat /\ length (recorded c) = 0%nat
  | LoopHead =>
      exists k, n = head k /\ length (recorded c) = (2 * k)%nat
  | Body First s =>
      exists k, n = (head k + 1 + stage_index s)%nat /\
                length (recorded c) = (2 * k)%nat
  | Body Second s =>
      exists k, n = (head k + 5 + stage_index s)%nat /\
                length (recorded c) = (2 * k + 1)%nat
  | _ => True
  end.

(** ** Further invariants of the run *)

(** A sample shows a settled model: its design signals are what an
    evaluation made at the sample's timestamp and clock level returned. *)
Definition settled_sample (s : Sample) : Prop :=
  exists ctx m fin,
    eval ctx m = Settled (design (snap s)) fin /\
    time ctx = stamp s /\ clk m = clk (snap s).

(** Every recorded sample is settled, and so is the model when [main] is
    about to dump it. *)
Definition Settles (c : Config) : Prop :=
  Forall settled_sample (recorded c) /\
  match pc c with
  | Body _ Dump => settled_sample (mkSample (now c) (top c))
  | _ => True
  end.

(** Reads of the completion flag against samples recorded. *)
Definition Reads (c : Config) : Prop :=
  let r := count is_check (calls c) in
  let m := length (recorded c) in
  match pc c with
  | AtOpen => r = 0%nat /\ m = 0%nat
  | LoopHead => (2 * r = m)%nat
  | Body First _ => (2 * r = m + 2)%nat
  | Body Second _ => (2 * r = m + 1)%nat
  | Aborted => (2 * r = m + 2 \/ 2 * r = m + 1)%nat
  | _ => (2 * r = m + 2)%nat
  end.

End Driver.

(** ** Two concrete designs *)

(** A testbench that counts rising clock edges and raises [$finish] on the
    [limit]-th one. *)
Definition edge_counter (limit : nat) (ctx : VerilatedContext)
    (m : Vtb_pim_system nat) : EvalResult nat :=
  if clk m
  then Settled (S (design m)) (gotFinish ctx || (limit <=? S (design m))%nat)
  else Settled (design m) (gotFinish ctx).

(** A design that never raises [$finish]. *)
Definition free_running (ctx : VerilatedContext)
    (m : Vtb_pim_system unit) : EvalResult unit :=
  Settled tt false.

(** A design whose assertion fails once simulated time reaches [limit]. *)
Definition failing_assertion (limit : Z) (ctx : VerilatedContext)
    (m : Vtb_pim_system unit) : EvalResult unit :=
  if limit <=? time ctx then Fatal unit else Settled tt (gotFinish ctx).

(** * Properties *)

#[local] Arguments Z.mul : simpl never.
#[local] Arguments Z.of_nat : simpl never.
#[local] Arguments Nat.odd : simpl never.
#[local] Arguments Nat.even : simpl never.

Lemma odd_add_1 (n : nat) : Nat.odd (n + 1) = negb (Nat.odd n).
Proof. now rewrite Nat.add_1_r, Nat.odd_succ, <- Nat.negb_odd. Qed.

Lemma even_add_1 (n : nat) : Nat.even (n + 1) = negb (Nat.even n).
Proof. now rewrite Nat.add_1_r, Nat.even_succ, <- Nat.negb_even. Qed.

Lemma odd_true_even (n : nat) : Nat.odd n = true -> Nat.even n = false.
Proof. rewrite <- Nat.negb_even. now destruct (Nat.even n). Qed.

Lemma even_true_odd (n : nat) : Nat.even n = true -> Nat.odd n = false.
Proof. rewrite <- Nat.negb_even. now destruct (Nat.even n). Qed.

Lemma count_app (p : Call -> bool) (l1 l2 : list Call) :
  count p (l1 ++ l2) = (count p l1 + count p l2)%nat.
Proof.
  induction l1 as [|c l1 IH]; simpl; [reflexivity|].
  rewrite IH. lia.
Qed.

Lemma check_points_app (l1 l2 : list Call) (seen : nat) :
  check_points seen (l1 ++ l2) =
  check_points seen l1 ++ check_points (seen + count is_dump l1) l2.
Proof.
  revert seen. induction l1 as [|c l1 IH]; intros seen; simpl.
  - now rewrite Nat.add_0_r.
  - destruct c; simpl; rewrite IH; simpl; try reflexivity.
    now rewrite Nat.add_succ_r.
Qed.

Lemma nth_error_snoc (A : Type) (l : list A) (x s : A) (k : nat) :
  nth_error (l ++ [x]) k = Some s ->
  nth_error l k = Some s \/ (k = length l /\ s = x).
Proof.
  intros H. destruct (Nat.lt_ge_cases k (length l)) as [Hk|Hk].
  - left. now rewrite nth_error_app1 in H.
  - right. rewrite nth_error_app2 in H by exact Hk.
    destruct (k - length l)%nat as [|j] eqn:E; simpl in H.
    + split; [lia | congruence].
    + now destruct j.
Qed.

Lemma last_call_snoc (l : list Call) (c : Call) : last_call (l ++ [c]) = Some c.
Proof.
  induction l as [|a l IH]; simpl; [reflexivity|].
  destruct (l ++ [c]) eqn:E; [now destruct l | exact IH].
Qed.

Lemma last_call_split (l : list Call) (c : Call) :
  last_call l = Some c -> exists l', l = l' ++ [c].
Proof.
  induction l as [|a l IH]; simpl; [discriminate|].
  destruct l as [|b l].
  - intros [= ->]. now exists [].
  - intros H. destruct (IH H) as [l' E]. exists (a :: l'). now rewrite E.
Qed.

Lemma chain_snoc (l : list Call) (c : Call) :
  chain (l ++ [c]) =
  chain l && match last_call l with Some a => may_follow a c | None => true end.
Proof.
  induction l as [|a l IH]; [reflexivity|].
  destruct l as [|b l]; [simpl; now rewrite andb_true_r|].
  change (chain ((a :: b :: l) ++ [c]))
    with (may_follow a b && chain ((b :: l) ++ [c])).
  rewrite IH. change (chain (a :: b :: l)) with (may_follow a b && chain (b :: l)).
  change (last_call (a :: b :: l)) with (last_call (b :: l)).
  now rewrite andb_assoc.
Qed.

Lemma chain_adjacent (pre post : list Call) (a b : Call) :
  chain (pre ++ a :: b :: post) = true -> may_follow a b = true.
Proof.
  induction pre as [|x pre IH].
  - simpl. intros H. now apply andb_true_iff in H.
  - intros H. apply IH.
    change ((x :: pre) ++ a :: b :: post) with (x :: (pre ++ a :: b :: post)) in H.
    destruct (pre ++ a :: b :: post) eqn:E; [now destruct pre|].
    simpl in H. now apply andb_true_iff in H.
Qed.

Lemma divmod9 (r k : nat) :
  (r < 9)%nat -> ((r + k * 9) / 9 = k /\ (r + k * 9) mod 9 = r)%nat.
Proof.
  intros Hr. split.
  - rewrite Nat.div_add by discriminate. rewrite (Nat.div_small r 9 Hr). lia.
  - rewrite Nat.Div0.mod_add. now apply Nat.mod_small.
Qed.

#[local] Arguments main : simpl never.

Section Properties.

Variable Design : Type.
Variable eval : VerilatedContext -> Vtb_pim_system Design -> EvalResult Design.
Variables finish0 clk0 : bool.
Variable design0 : Design.

Local Abbreviation Cfg := (Config Design).
Local Abbreviation run := (main eval finish0 clk0 design0).
Local Abbreviation step1 := (step eval).

Lemma steps_add (a b : nat) (c : Cfg) :
  steps eval (a + b) c = steps eval b (steps eval a c).
Proof.
  induction b as [|b IH]; simpl.
  - now rewrite Nat.add_0_r.
  - rewrite Nat.add_succ_r. simpl. now rewrite IH.
Qed.

Lemma run_S (n : nat) : run (S n) = step1 (run n).
Proof. reflexivity. Qed.

Lemma run_add (a b : nat) : run (a + b) = steps eval b (run a).
Proof. apply steps_add. Qed.

(** Induction over the statements executed so far. *)
Lemma run_invariant (I : Cfg -> Prop) :
  I (boot finish0 clk0 design0) ->
  (forall c, I c -> I (step1 c)) ->
  forall n, I (run n).
Proof.
  intros H0 HS n. induction n as [|n IH]; [exact H0|].
  rewrite run_S. now apply HS.
Qed.

Lemma Inv_boot : Inv clk0 (boot finish0 clk0 design0).
Proof.
  constructor; simpl; try reflexivity.
  - now destruct clk0.
  - intros [|k] s; discriminate.
  - discriminate.
Qed.

Ltac log_arith :=
  rewrite ?count_app, ?length_app; simpl;
  rewrite ?Nat.add_0_r in *; try lia.

Ltac level_arith :=
  rewrite ?odd_add_1, ?even_add_1;
  repeat match goal with
  | H : Nat.even _ = true |- _ => rewrite ?H, ?(even_true_odd _ H); clear H
  | H : Nat.odd _ = true |- _ => rewrite ?H, ?(odd_true_even _ H); clear H
  end;
  repeat match goal with
  | |- context [xorb ?b _] => is_var b; destruct b
  | |- context [Nat.odd ?n] => destruct (Nat.odd n)
  | |- context [Nat.even ?n] => destruct (Nat.even n)
  end; simpl; try reflexivity; try discriminate.

Lemma Inv_step (c : Cfg) : Inv clk0 c -> Inv clk0 (step1 c).
Proof.
  destruct c as [p ctx tp f l].
  intros [H1 H2 H3 H4 H5 H6 H7 H8 H9 H10].
  unfold recorded, now in *; simpl in *.
  destruct p as [ | | [|] [ | | | ] | | | s | ]; unfold step; simpl;
    try (constructor; assumption).
  all: try match goal with
       | |- context [eval ?x ?m] => destruct (eval x m) as [d fin|]
       | |- context [gotFinish ?x] => destruct (gotFinish x)
       end.
  all: unfold dump; simpl in *; rewrite ?H7.
  all: constructor; unfold recorded, now; simpl.
  all: try discriminate.
  all: try solve [log_arith].
  all: try assumption.
  all: try solve [rewrite ?count_app; simpl; rewrite ?Nat.add_0_r; assumption].
  all: try solve [intros s' [= <-]; reflexivity].
  all: try solve [rewrite length_app; simpl; level_arith].
  all: try solve [rewrite count_app; simpl; rewrite odd_add_1, H6;
                  now destruct clk0, (Nat.odd (count is_clk l))].
  all: intros k s Hk; apply nth_error_snoc in Hk as [Hk|[-> ->]];
    [now apply H9|]; simpl; split; [lia|].
  all: rewrite H6, H3, odd_add_1, Nat.negb_odd; reflexivity.
Qed.

Lemma Inv_run (n : nat) : Inv clk0 (run n).
Proof. apply run_invariant; [apply Inv_boot | apply Inv_step]. Qed.

Lemma Shape_boot : Shape (boot finish0 clk0 design0).
Proof. constructor; simpl; auto. Qed.

Lemma Shape_step (c : Cfg) : Inv clk0 c -> Shape c -> Shape (step1 c).
Proof.
  destruct c as [p ctx tp f l].
  intros [H1 _ _ _ _ _ _ H8 _ _] [S1 S2 S3 S4 S5].
  unfold recorded in *; simpl in *.
  destruct p as [ | | [|] [ | | | ] | | | s | ]; unfold step; simpl;
    try (constructor; assumption).
  all: try match goal with
       | |- context [eval ?x ?m] => destruct (eval x m) as [d fin|]
       | |- context [gotFinish ?x] => destruct (gotFinish x)
       end.
  all: constructor; simpl.
  all: rewrite ?last_call_snoc; try reflexivity.
  all: try solve [rewrite count_app, S4; reflexivity].
  all: try solve [rewrite check_points_app; apply Forall_app; split;
                  [assumption|]; simpl; repeat constructor;
                  rewrite H1; exact H8].
  all: try solve [rewrite chain_snoc, S1; simpl;
                  destruct (last_call l) as [[ |[|]| | | | | ]|];
                  simpl in S2; try discriminate; try reflexivity;
                  exact S2].
  all: try solve [destruct l as [|x t]; simpl in *;
                  [try discriminate; repeat split; discriminate|];
                  destruct S3 as (-> & Hc & Hne);
                  repeat split; try discriminate; try assumption;
                  try (now elim Hne); rewrite count_app, Hc; reflexivity].
Qed.

Lemma Inv_Shape_run (n : nat) : Inv clk0 (run n) /\ Shape (run n).
Proof.
  apply run_invariant with (I := fun c => Inv clk0 c /\ Shape c).
  - split; [apply Inv_boot | apply Shape_boot].
  - intros c [HI HS]. split; [now apply Inv_step | now apply Shape_step].
Qed.

Lemma Shape_run (n : nat) : Shape (run n).
Proof. apply Inv_Shape_run. Qed.

Lemma Sched_step (n : nat) (c : Cfg) :
  Inv clk0 c -> Sched n c -> Sched (S n) (step1 c).
Proof.
  destruct c as [p ctx tp f l].
  intros [_ _ _ _ _ _ H7 _ _ _]. unfold Sched, recorded, head; simpl in *.
  destruct p as [ | | [|] [ | | | ] | | | s | ]; unfold step; simpl; trivial.
  all: try match goal with
       | |- context [eval ?x ?m] => destruct (eval x m) as [d fin|]
       | |- context [gotFinish ?x] => destruct (gotFinish x)
       end.
  all: unfold dump; simpl; rewrite ?H7; simpl; trivial.
  all: try (intros [-> Hk]; exists 0%nat; split; [reflexivity | exact Hk]).
  all: intros [k [-> Hk]]; rewrite ?length_app; simpl.
  all: try (exists k; split; lia).
  exists (S k); split; lia.
Qed.

Lemma Sched_run (n : nat) : Sched n (run n).
Proof.
  induction n as [|n IH]; [split; reflexivity|].
  rewrite run_S. apply Sched_step; [apply Inv_run | exact IH].
Qed.

Lemma steps_stuck (c : Cfg) (n : nat) : step1 c = c -> steps eval n c = c.
Proof. intros H. induction n as [|n IH]; simpl; [reflexivity | now rewrite IH]. Qed.

Lemma run_stuck (n m : nat) : step1 (run n) = run n -> run (n + m) = run n.
Proof. intros H. rewrite run_add. now apply steps_stuck. Qed.

(** *** Termination of the loop *)

Lemma leaves_at_head (c : Cfg) :
  left_loop c = false -> left_loop (step1 c) = true ->
  pc c = LoopHead /\ finished c = true.
Proof.
  destruct c as [p ctx tp f l]. unfold left_loop, finished, step; simpl.
  destruct p as [ | | h [ | | | ] | | | s | ]; simpl; try discriminate.
  - destruct (gotFinish ctx); [auto | discriminate].
  - destruct (eval ctx tp); discriminate.
  - destruct h; discriminate.
Qed.

Lemma left_loop_origin (n : nat) :
  left_loop (run n) = true ->
  exists m, pc (run m) = LoopHead /\ finished (run m) = true.
Proof.
  induction n as [|n IH]; [discriminate|].
  intros H. destruct (left_loop (run n)) eqn:E; [now apply IH|].
  exists n. now apply leaves_at_head.
Qed.

Lemma head_exits (c : Cfg) :
  pc c = LoopHead -> finished c = true -> pc (step1 c) = AtClose.
Proof.
  destruct c as [p ctx tp f l]. unfold finished, step; simpl.
  intros -> ->. reflexivity.
Qed.

(** C1. The loop is left exactly when the completion flag is found set at
    some evaluation of the loop condition, that is after some number [k] of
    full iterations; when the flag is clear at every loop head, no number of
    statements takes [main] out of the loop, and unless an evaluation kills
    the process the loop condition is reached again after any number of
    iterations. *)
Theorem loop_exits_iff_finish_seen :
  ((exists n, left_loop (run n) = true) <->
   (exists k, pc (run (head k)) = LoopHead /\ finished (run (head k)) = true))
  /\ ((forall k, finished (run (head k)) = false) ->
      forall n, left_loop (run n) = false)
  /\ ((forall k, finished (run (head k)) = false) ->
      (forall n, pc (run n) <> Aborted) ->
      forall k, pc (run (head k)) = LoopHead).
Proof.
  assert (Hfwd : forall n, left_loop (run n) = true ->
            exists k, pc (run (head k)) = LoopHead /\
                      finished (run (head k)) = true).
  { intros n H. destruct (left_loop_origin n H) as [m [Hm Hf]].
    pose proof (Sched_run m) as HS. unfold Sched in HS. rewrite Hm in HS.
    destruct HS as [k [-> _]]. now exists k. }
  assert (Hnever : (forall k, finished (run (head k)) = false) ->
                   forall n, left_loop (run n) = false).
  { intros Hn n. destruct (left_loop (run n)) eqn:E; [|reflexivity].
    destruct (Hfwd n E) as [k [_ Hf]]. rewrite Hn in Hf. discriminate. }
  split; [split|split; [exact Hnever|]].
  - intros [n H]. now apply (Hfwd n).
  - intros [k [Hk Hf]]. exists (S (head k)). rewrite run_S.
    unfold left_loop. now rewrite (head_exits _ Hk Hf).
  - intros Hn Hlive k.
    pose proof (Hnever Hn (head k)) as Hl. pose proof (Hlive (head k)) as Ha.
    pose proof (Sched_run (head k)) as HS.
    unfold left_loop in Hl. unfold Sched, head in HS. unfold head in *.
    destruct (pc (run (1 + 9 * k))) as [ | | [|] s | | | ? | ];
      try discriminate; try reflexivity; try (now elim Ha).
    all: destruct HS as [j [E _]]; try destruct s; simpl in E; lia.
Qed.

(** *** Simulated time *)

Lemma step_time (c : Cfg) :
  (count is_inc (calls (step1 c)) = S (count is_inc (calls c)) /\
   now (step1 c) = now c + 5) \/
  (count is_inc (calls (step1 c)) = count is_inc (calls c) /\
   now (step1 c) = now c).
Proof.
  destruct c as [p ctx tp f l]. unfold now, step; simpl.
  destruct p as [ | | h [ | | | ] | | | s | ]; simpl;
    try (destruct (eval ctx tp)); simpl; rewrite ?count_app; simpl;
    solve [left; split; [lia | reflexivity] | right; split; [lia | reflexivity]].
Qed.

(** C2. At every point of the run simulated time is 5 times the number of
    [timeInc] calls made so far; each statement either is such a call, and
    then adds exactly 5, or leaves time as it is; and every advancement is
    by the quantum 5. *)
Theorem time_is_five_per_advancement (n : nat) :
  now (run n) = 5 * Z.of_nat (count is_inc (calls (run n)))
  /\ ((count is_inc (calls (run (S n))) = S (count is_inc (calls (run n))) /\
       now (run (S n)) = now (run n) + 5) \/
      (count is_inc (calls (run (S n))) = count is_inc (calls (run n)) /\
       now (run (S n)) = now (run n)))
  /\ Forall (fun x => is_inc x = true -> x = CTimeInc 5) (calls (run n)).
Proof.
  split; [apply Inv_run | split; [apply step_time|]].
  apply run_invariant with (I := fun c =>
    Forall (fun x => is_inc x = true -> x = CTimeInc 5) (calls c)).
  - constructor.
  - intros [p ctx tp f l] H. unfold step; simpl in *.
    destruct p as [ | | h [ | | | ] | | | s | ]; simpl;
      try (destruct (eval ctx tp)); simpl; trivial;
      apply Forall_app; (split; [exact H|]); repeat constructor;
      simpl; try discriminate; reflexivity.
Qed.

(** *** The clock *)

Lemma nth_error_middle (A : Type) (pre post : list A) (x : A) :
  nth_error (pre ++ x :: post) (length pre) = Some x.
Proof. rewrite nth_error_app2 by lia. now rewrite Nat.sub_diag. Qed.

(** C3. Any two consecutive samples of the trace show opposite clock
    levels; the level on the model is the reset level flipped once per clock
    write; and clock writes and time advancements come in pairs, each
    advancement directly followed by its write. *)
Theorem clock_alternates (n : nat) :
  (forall pre s1 s2 post, recorded (run n) = pre ++ s1 :: s2 :: post ->
     clk (snap s2) = negb (clk (snap s1)))
  /\ clk (top (run n)) = xorb clk0 (Nat.odd (count is_clk (calls (run n))))
  /\ (count is_clk (calls (run n)) <= count is_inc (calls (run n))
       <= S (count is_clk (calls (run n))))%nat
  /\ (forall pre a b post, calls (run n) = pre ++ a :: b :: post ->
       (is_inc a = true <-> is_clk b = true)).
Proof.
  destruct (Inv_run n) as [_ _ H3 H4 _ H6 _ _ H9 _].
  split; [|split; [exact H6|split]].
  - intros pre s1 s2 post E.
    assert (E1 : nth_error (recorded (run n)) (length pre) = Some s1)
      by (rewrite E; apply nth_error_middle).
    assert (E2 : nth_error (recorded (run n)) (S (length pre)) = Some s2).
    { rewrite E. change (pre ++ s1 :: s2 :: post) with (pre ++ [s1] ++ s2 :: post).
      rewrite app_assoc.
      replace (S (length pre)) with (length (pre ++ [s1]))
        by (rewrite length_app; simpl; lia).
      apply nth_error_middle. }
    apply H9 in E1 as [_ ->]. apply H9 in E2 as [_ ->].
    rewrite Nat.even_succ, <- Nat.negb_even.
    now destruct clk0, (Nat.even (length pre)).
  - rewrite H3, H4. destruct (pc (run n)) as [ | | h [ | | | ] | | | s | ];
      simpl; lia.
  - intros pre a b post E.
    pose proof (shape_chain (Shape_run n)) as Hc. rewrite E in Hc.
    apply chain_adjacent in Hc.
    destruct a as [ |[|]| | | | | ], b as [ |[|]| | | | | ];
      simpl in *; try discriminate; split; auto.
Qed.

(** *** The trace *)

Lemma stamps_sorted (l : list (Sample Design)) (o : nat) :
  (forall k s, nth_error l k = Some s -> stamp s = 5 * Z.of_nat (S (o + k))) ->
  StronglySorted Z.lt (map (@stamp Design) l).
Proof.
  revert o. induction l as [|x l IH]; intros o H; simpl; constructor.
  - apply (IH (S o)). intros k s Hk.
    rewrite (H (S k) s Hk). f_equal. lia.
  - apply Forall_forall. intros t Ht.
    apply in_map_iff in Ht as [s [<- Hs]].
    apply In_nth_error in Hs as [k Hk].
    rewrite (H 0%nat x eq_refl), (H (S k) s Hk). lia.
Qed.

(** C4. The trace holds one sample per [dump] call and one per evaluation
    that has returned to a dump (an evaluation still awaiting its dump, or
    one that aborted the process, has none); after [k] full iterations it
    holds exactly [2 * k] samples; and the timestamps are strictly
    increasing along the trace. *)
Theorem one_sample_per_evaluation (n : nat) :
  length (recorded (run n)) = count is_dump (calls (run n))
  /\ count is_eval (calls (run n)) =
     (length (recorded (run n)) + after_eval (pc (run n)))%nat
  /\ (forall k, pc (run (head k)) = LoopHead ->
       length (recorded (run (head k))) = (2 * k)%nat)
  /\ StronglySorted Z.lt (map (@stamp Design) (recorded (run n))).
Proof.
  destruct (Inv_run n) as [H1 H2 _ _ _ _ _ _ H9 _].
  split; [now symmetry | split; [exact H2 | split]].
  - intros k Hk. pose proof (Sched_run (head k)) as HS.
    unfold Sched in HS. rewrite Hk in HS. destruct HS as [j [E Hj]].
    unfold head in E. assert (j = k) by lia. now subst j.
  - apply stamps_sorted with (o := 0%nat). intros k s Hk.
    now apply H9 in Hk as [-> _].
Qed.

(** *** Order of operations in a half-cycle *)


(** *** The trace file's life cycle *)

(** C6 (as the code has it). The trace is opened by the first statement and
    never again; it stays open, with no [close] call, until [main] passes
    line 44, so every sample is written between the two; when [main] has
    returned, the call log is [open], then calls other than [open] and
    [close], then [close], and the file is closed.  When an evaluation aborts
    the process the driver has made no [close] call and the file is left
    open. *)
Theorem trace_closed_once_on_return (n : nat) :
  (exists t, calls (run (S n)) = COpen :: t /\ count is_open t = 0%nat)
  /\ count is_close (calls (run n)) = closes_made (pc (run n))
  /\ isOpen (tfp (run n)) = sink_open (pc (run n))
  /\ (exited (run n) = true ->
      exists mid, calls (run n) = COpen :: mid ++ [CClose] /\
                  count is_open mid = 0%nat /\ count is_close mid = 0%nat /\
                  count is_dump mid = length (recorded (run n)))
  /\ (pc (run n) = Aborted ->
      count is_close (calls (run n)) = 0%nat /\ isOpen (tfp (run n)) = true).
Proof.
  pose proof (Shape_run n) as [_ Hl Ho Hc _].
  pose proof (Inv_run n) as [Hd _ _ _ _ _ Hs _ _ _].
  split; [|split; [exact Hc | split; [exact Hs | split]]].
  - pose proof (shape_open (Shape_run (S n))) as H.
    destruct (calls (run (S n))) as [|x t].
    + exfalso. pose proof (Sched_run (S n)) as HS. unfold Sched in HS.
      rewrite H in HS. destruct HS as [HS _]. discriminate.
    + destruct H as (-> & H & _). now exists t.
  - unfold exited. intros He.
    destruct (pc (run n)) eqn:Ep; try discriminate.
    destruct (calls (run n)) as [|x t] eqn:Ec; [discriminate|].
    destruct Ho as (-> & Hot & _).
    destruct t as [|y t]; [discriminate|].
    change (last_call (COpen :: y :: t)) with (last_call (y :: t)) in Hl.
    destruct (last_call (y :: t)) as [z|] eqn:El; [|discriminate].
    destruct z; try discriminate.
    apply last_call_split in El as [mid Emid]. exists mid. rewrite Emid in *.
    rewrite count_app in Hot. simpl in Hc, Hd. rewrite count_app in Hc, Hd.
    simpl in *. repeat split; lia.
  - intros Ep. rewrite Hc, Hs, Ep. split; reflexivity.
Qed.

(** *** Leaving the loop *)

(** C9. Every read of the completion flag happens when an even number of
    samples has been dumped, never between the two half-cycles; once the
    loop has been left the trace holds an even number [2 * k] of samples and
    simulated time is [10 * k]. *)
Theorem finish_checked_at_cycle_boundaries (n : nat) :
  Forall (fun seen => Nat.even seen = true) (check_points 0 (calls (run n)))
  /\ (left_loop (run n) = true ->
      exists k, length (recorded (run n)) = (2 * k)%nat /\
                now (run n) = 10 * Z.of_nat k).
Proof.
  split; [apply Shape_run|].
  destruct (Inv_run n) as [_ _ _ H4 H5 _ _ H8 _ _].
  unfold left_loop. intros Hl.
  assert (He : Nat.even (length (recorded (run n))) = true /\
               after_inc (pc (run n)) = 0%nat)
    by (destruct (pc (run n)) as [ | | h [ | | | ] | | | s | ];
        try discriminate; now split).
  destruct He as [He Ha]. apply Nat.even_spec in He as [k Hk].
  exists k. split; [exact Hk|]. rewrite H5, H4, Ha, Hk. lia.
Qed.

(** *** Timestamps *)

(** C10. The first sample of the trace carries timestamp 5, and every sample
    carries a strictly positive multiple of 5; none is stamped 0. *)
Theorem samples_start_at_one_quantum (n : nat) :
  (forall s, hd_error (recorded (run n)) = Some s -> stamp s = 5)
  /\ (forall s, In s (recorded (run n)) ->
       exists k, 0 < k /\ stamp s = 5 * k)
  /\ (forall s, In s (recorded (run n)) -> stamp s <> 0).
Proof.
  destruct (Inv_run n) as [_ _ _ _ _ _ _ _ H9 _].
  assert (Hpos : forall s, In s (recorded (run n)) ->
            exists k, 0 < k /\ stamp s = 5 * k).
  { intros s Hs. apply In_nth_error in Hs as [k Hk].
    apply H9 in Hk as [-> _]. exists (Z.of_nat (S k)). split; [lia | reflexivity]. }
  split; [|split; [exact Hpos|]].
  - intros s Hs. destruct (recorded (run n)) as [|x l] eqn:E; [discriminate|].
    injection Hs as ->. now destruct (H9 0%nat s eq_refl) as [-> _].
  - intros s Hs. destruct (Hpos s Hs) as [k [Hk ->]]. lia.
Qed.

(** *** Scenarios *)

(** C8. With the completion flag already set when the loop is first
    reached, time stays 0, the model keeps its clock level and signals, no
    call advances time, writes the clock or evaluates, and no sample is
    recorded, at any point of the run.  The trace, unopened at the start, is
    open after the first statement and still open when the flag has been
    read, and is closed by the third statement; from the fourth statement on
    [main] has returned 0 having made exactly the calls [open], the flag
    read, and [close]. *)
Theorem finish_set_before_first_iteration (n : nat) :
  let c := main eval true clk0 design0 n in
  now c = 0 /\ top c = mkTop clk0 design0 /\ recorded c = []
  /\ count is_inc (calls c) = 0%nat /\ count is_clk (calls c) = 0%nat
  /\ count is_eval (calls c) = 0%nat
  /\ main eval true clk0 design0 (4 + n) =
     mkConfig (Exited 0) (mkContext 0 true) (mkTop clk0 design0)
              (mkVcd false []) [COpen; CGotFinish true; CClose]
  /\ tfp (main eval true clk0 design0 0) = mkVcd false []
  /\ main eval true clk0 design0 1 =
     mkConfig LoopHead (mkContext 0 true) (mkTop clk0 design0)
              (mkVcd true []) [COpen]
  /\ main eval true clk0 design0 2 =
     mkConfig AtClose (mkContext 0 true) (mkTop clk0 design0)
              (mkVcd true []) [COpen; CGotFinish true]
  /\ main eval true clk0 design0 3 =
     mkConfig AtReturn (mkContext 0 true) (mkTop clk0 design0)
              (mkVcd false []) [COpen; CGotFinish true; CClose]
  /\ isOpen (tfp c) =
     match n with 1%nat | 2%nat => true | _ => false end
  /\ count is_open (calls (main eval true clk0 design0 (4 + n))) = 1%nat
  /\ count is_close (calls (main eval true clk0 design0 (4 + n))) = 1%nat.
Proof.
  assert (E : forall m, main eval true clk0 design0 (4 + m) =
     mkConfig (Exited 0) (mkContext 0 true) (mkTop clk0 design0)
              (mkVcd false []) [COpen; CGotFinish true; CClose]).
  { intros m. unfold main. rewrite steps_add. now apply steps_stuck. }
  destruct n as [|[|[|[|m]]]];
    try (change (S (S (S (S m)))) with (4 + m)%nat);
    rewrite !E; cbv zeta; repeat split; reflexivity.
Qed.

Lemma now_in_loop (n : nat) :
  in_loop (run n) = true -> now (run n) = scheduled_time n.
Proof.
  unfold in_loop, scheduled_time. intros Hin.
  destruct (Inv_run n) as [_ _ _ H4 H5 _ _ _ _ _].
  pose proof (Sched_run n) as HS. unfold Sched, head in HS.
  rewrite H5, H4. clear H4 H5.
  destruct (pc (run n)) as [ | | [|] s | | | ? | ]; try discriminate;
    destruct HS as [k [-> ->]]; try destruct s; simpl after_inc; simpl stage_index.
  all: match goal with
       | |- context [((1 + 9 * ?j + ?a + ?b - 1) / 9)%nat] =>
           replace (1 + 9 * j + a + b - 1)%nat with (a + b + j * 9)%nat by lia;
           destruct (@divmod9 (a + b) j ltac:(simpl; lia)) as [-> ->]
       | |- context [((1 + 9 * ?j - 1) / 9)%nat] =>
           replace (1 + 9 * j - 1)%nat with (0 + j * 9)%nat by lia;
           destruct (@divmod9 0 j ltac:(lia)) as [-> ->]
       end.
  all: simpl; lia.
Qed.

Lemma stays_out (c : Cfg) :
  in_loop c = false -> pc c <> AtOpen -> 
  in_loop (step1 c) = false /\ pc (step1 c) <> AtOpen.
Proof.
  destruct c as [p ctx tp f l]. unfold in_loop, step; simpl.
  destruct p as [ | | h s | | | ? | ]; simpl; try discriminate;
    intros _ H; split; try discriminate; try reflexivity; now elim H.
Qed.

Lemma out_forever (n m : nat) :
  in_loop (run n) = false -> pc (run n) <> AtOpen ->
  in_loop (run (n + m)) = false /\ pc (run (n + m)) <> AtOpen.
Proof.
  intros H1 H2. induction m as [|m IH]; [rewrite Nat.add_0_r; now split|].
  rewrite Nat.add_succ_r, run_S. now apply stays_out.
Qed.

Lemma in_loop_before (n m : nat) :
  in_loop (run (S n + m)) = true -> in_loop (run (S n)) = true.
Proof.
  intros H. destruct (in_loop (run (S n))) eqn:E; [reflexivity|].
  assert (Hne : pc (run (S n)) <> AtOpen).
  { intros Ep. pose proof (Sched_run (S n)) as HS. unfold Sched in HS.
    rewrite Ep in HS. now destruct HS. }
  destruct (@out_forever (S n) m E Hne) as [Hout _]. congruence.
Qed.

Lemma exit_path (c : Cfg) :
  pc c = LoopHead -> finished c = true ->
  now (step1 c) = now c /\ now (step1 (step1 c)) = now c /\
  now (steps eval 3 c) = now c /\ pc (steps eval 3 c) = Exited 0 /\
  recorded (steps eval 3 c) = recorded c /\
  step1 (steps eval 3 c) = steps eval 3 c.
Proof.
  destruct c as [p [t g] tp f l]. unfold finished.
  cbn [pc contextp gotFinish]. intros -> ->.
  repeat split; reflexivity.
Qed.

Lemma six_samples (l : list (Sample Design)) :
  length l = 6%nat ->
  (forall k s, nth_error l k = Some s ->
     stamp s = 5 * Z.of_nat (S k) /\ clk (snap s) = xorb clk0 (Nat.even k)) ->
  map (@stamp Design) l = [5; 10; 15; 20; 25; 30] /\
  map (fun s => clk (snap s)) l =
    [negb clk0; clk0; negb clk0; clk0; negb clk0; clk0].
Proof.
  destruct l as [|s0 [|s1 [|s2 [|s3 [|s4 [|s5 [|]]]]]]]; try discriminate.
  intros _ H. simpl map.
  destruct (H 0%nat s0 eq_refl) as [-> ->], (H 1%nat s1 eq_refl) as [-> ->],
    (H 2%nat s2 eq_refl) as [-> ->], (H 3%nat s3 eq_refl) as [-> ->],
    (H 4%nat s4 eq_refl) as [-> ->], (H 5%nat s5 eq_refl) as [-> ->].
  split; [reflexivity | now destruct clk0].
Qed.

Lemma at_head_in_loop (c : Cfg) : pc c = LoopHead -> in_loop c = true.
Proof. unfold in_loop. now intros ->. Qed.

Lemma head_samples (k : nat) :
  pc (run (head k)) = LoopHead ->
  length (recorded (run (head k))) = (2 * k)%nat.
Proof.
  intros Hk. pose proof (Sched_run (head k)) as HS.
  unfold Sched in HS. rewrite Hk in HS. destruct HS as [j [E Hj]].
  unfold head in E. assert (j = k) by lia. now subst j.
Qed.

(** A run that finds the flag set at its [k+1]-th loop head. *)
Lemma finished_run (k : nat) :
  pc (run (head k)) = LoopHead -> finished (run (head k)) = true ->
  pc (run (head k + 3)) = Exited 0 /\
  recorded (run (head k + 3)) = recorded (run (head k)) /\
  length (recorded (run (head k))) = (2 * k)%nat /\
  (forall m, run (head k + 3 + m) = run (head k + 3)) /\
  time_progress eval finish0 clk0 design0 (head k + 3) =
    compress (map (exit_schedule k) (seq 0 (S (head k + 3)))).
Proof.
  intros Hpc Hfin.
  destruct (exit_path _ Hpc Hfin) as (T1' & T2' & T3' & P3' & R3' & S3').
  assert (T1 : now (run (S (head k))) = now (run (head k)))
    by (rewrite (run_S (head k)); exact T1').
  assert (T2 : now (run (S (S (head k)))) = now (run (head k)))
    by (rewrite (run_S (S (head k))), (run_S (head k)); exact T2').
  assert (T3 : now (run (head k + 3)) = now (run (head k)))
    by (rewrite (run_add (head k) 3); exact T3').
  assert (P3 : pc (run (head k + 3)) = Exited 0)
    by (rewrite (run_add (head k) 3); exact P3').
  assert (R3 : recorded (run (head k + 3)) = recorded (run (head k)))
    by (rewrite (run_add (head k) 3); exact R3').
  assert (S3 : step1 (run (head k + 3)) = run (head k + 3))
    by (rewrite (run_add (head k) 3); exact S3').
  clear T1' T2' T3' P3' R3' S3'.
  pose proof (at_head_in_loop _ Hpc) as Hin.
  pose proof (head_samples k Hpc) as Hlen.
  assert (Hnow : now (run (head k)) = 10 * Z.of_nat k).
  { destruct (Inv_run (head k)) as [_ _ _ H4 H5 _ _ _ _ _].
    rewrite H5, H4, Hlen, Hpc. simpl after_inc. lia. }
  repeat split; trivial.
  - intros m. apply run_stuck. exact S3.
  - unfold time_progress. f_equal. apply map_ext_in.
    intros i Hi. apply in_seq in Hi. unfold exit_schedule.
    destruct (Nat.eq_dec i 0) as [->|Hi0]; [reflexivity|].
    replace (i =? 0)%nat with false by (symmetry; now apply Nat.eqb_neq).
    destruct (Nat.le_gt_cases i (head k)) as [Hle|Hgt].
    + replace (i <=? 1 + 9 * k)%nat with true by (symmetry; now apply Nat.leb_le).
      apply now_in_loop. destruct i as [|i]; [lia|].
      apply in_loop_before with (m := (head k - S i)%nat).
      replace (S i + (head k - S i))%nat with (head k) by lia.
      exact Hin.
    + replace (i <=? 1 + 9 * k)%nat with false
        by (symmetry; now apply Nat.leb_gt).
      assert (Hc : i = S (head k) \/ i = S (S (head k)) \/ i = (head k + 3)%nat)
        by lia.
      destruct Hc as [->|[->| ->]]; congruence.
Qed.

(* The scenario is stated at closed statement counts: its statement is
   kept out of the inference of implicit arguments. *)
Unset Implicit Arguments.

(** C7. When the completion flag is found clear at the first three loop
    heads and set at the fourth, simulated time runs through
    0, 5, 10, 15, 20, 25, 30; the trace holds six samples stamped 5 to 30
    whose clock levels alternate starting from the complement of the reset
    level; and [main] returns 0. *)
Theorem three_cycle_scenario :
  finished (run (head 0)) = false ->
  finished (run (head 1)) = false ->
  finished (run (head 2)) = false ->
  pc (run (head 3)) = LoopHead ->
  finished (run (head 3)) = true ->
  time_progress eval finish0 clk0 design0 (head 3 + 3) = [0; 5; 10; 15; 20; 25; 30]
  /\ length (recorded (run (head 3 + 3))) = 6%nat
  /\ map (@stamp Design) (recorded (run (head 3 + 3))) = [5; 10; 15; 20; 25; 30]
  /\ map (fun s => clk (snap s)) (recorded (run (head 3 + 3))) =
     [negb clk0; clk0; negb clk0; clk0; negb clk0; clk0]
  /\ pc (run (head 3 + 3)) = Exited 0
  /\ (forall m, run (head 3 + 3 + m) = run (head 3 + 3)).
Proof.
  intros _ _ _ Hpc Hfin.
  destruct (finished_run 3 Hpc Hfin) as (P & R & L & S & T).
  destruct (six_samples _ L (inv_samples (Inv_run (head 3)))) as [Hst Hck].
  rewrite T, R.
  split; [reflexivity|].
  split; [exact L|]. split; [exact Hst|]. split; [exact Hck|].
  split; [exact P | exact S].
Qed.

(** *** Further properties of [main] *)

(** [main] returns only the status 0, and only after reading the completion
    flag set, which is still set when it returns; the trace is closed then. *)
Theorem returns_zero_with_flag_set (n : nat) (s : Z) :
  pc (run n) = Exited s ->
  s = 0 /\ finished (run n) = true /\ isOpen (tfp (run n)) = false.
Proof.
  intros Hp. destruct (Inv_run n) as [_ _ _ _ _ _ H7 _ _ H10].
  split; [now apply H10 | split; [|now rewrite H7, Hp]].
  assert (HI : left_loop (run n) = true -> finished (run n) = true).
  { apply run_invariant with
      (I := fun c => left_loop c = true -> finished c = true); [discriminate|].
    intros [p [t g] tp f l]. unfold left_loop, finished, step; simpl.
    destruct p as [ | | h [ | | | ] | | | ? | ]; simpl; auto;
      try discriminate.
    - destruct g; [reflexivity | discriminate].
    - destruct (eval _ _); discriminate.
    - destruct h; discriminate. }
  apply HI. unfold left_loop. now rewrite Hp.
Qed.

(** The [k]-th sample of the trace, counting from 0, is stamped [5 * (k+1)]
    and shows the reset level of the clock when [k] is odd, its complement
    when [k] is even. *)
Theorem sample_closed_form (n k : nat) (s : Sample Design) :
  nth_error (recorded (run n)) k = Some s ->
  stamp s = 5 * Z.of_nat (S k) /\ clk (snap s) = xorb clk0 (Nat.even k).
Proof. apply (inv_samples (Inv_run n)). Qed.

Lemma Settles_step (c : Cfg) : Inv clk0 c -> Settles eval c -> Settles eval (step1 c).
Proof.
  destruct c as [p ctx tp f l].
  intros [_ _ _ _ _ _ H7 _ _ _] [HF HD].
  unfold Settles, recorded, now in *; simpl in *.
  destruct p as [ | | h [ | | | ] | | | ? | ]; unfold step; simpl;
    try (split; [assumption | exact I]).
  - destruct (gotFinish ctx); split; trivial.
  - destruct (eval ctx tp) as [d fin|] eqn:E; simpl; split; trivial.
    exists ctx, tp, fin. simpl. now rewrite E.
  - unfold dump. rewrite H7. simpl. split.
    + apply Forall_app. split; [assumption | now constructor].
    + now destruct h.
Qed.

(** Every sample of the trace is a settled state of the model: its design
    signals are the result of an evaluation made at the sample's timestamp
    with the sample's clock level on the input. *)
Theorem samples_are_settled (n : nat) :
  Forall (settled_sample eval) (recorded (run n)).
Proof.
  assert (H : Inv clk0 (run n) /\ Settles eval (run n)).
  { apply run_invariant with (I := fun c => Inv clk0 c /\ Settles eval c).
    - split; [apply Inv_boot | split; [constructor | exact I]].
    - intros c [HI HS]. split; [now apply Inv_step | now apply Settles_step]. }
  apply H.
Qed.

Lemma step_appends (c : Cfg) :
  exists l, recorded (step1 c) = recorded c ++ l.
Proof.
  destruct c as [p ctx tp f l]. unfold recorded, step; simpl.
  destruct p as [ | | h [ | | | ] | | | ? | ]; simpl;
    try (exists []; now rewrite app_nil_r).
  - destruct (eval ctx tp); exists []; simpl; now rewrite app_nil_r.
  - unfold dump. destruct (isOpen f); simpl.
    + now exists [mkSample (time ctx) tp].
    + exists []. now rewrite app_nil_r.
Qed.

(** The trace is append-only: what has been recorded after [n] statements
    is an initial segment of what is recorded at any later point. *)
Theorem trace_append_only (n m : nat) :
  exists l, recorded (run (n + m)) = recorded (run n) ++ l.
Proof.
  induction m as [|m [l IH]].
  - exists []. now rewrite Nat.add_0_r, app_nil_r.
  - rewrite Nat.add_succ_r, run_S.
    destruct (step_appends (run (n + m))) as [l' E].
    exists (l ++ l'). now rewrite E, IH, app_assoc.
Qed.

(** At every loop head, and once the loop has been left, the clock input is
    back at its reset level. *)
Theorem clock_rests_at_reset_level (n : nat) :
  pc (run n) = LoopHead \/ left_loop (run n) = true ->
  clk (top (run n)) = clk0.
Proof.
  destruct (Inv_run n) as [_ _ H3 _ _ H6 _ H8 _ _].
  unfold left_loop. intros H. rewrite H6, H3.
  destruct (pc (run n)) as [ | | h st | | | ? | ];
    try (destruct H as [H|H]; discriminate); simpl after_clk;
    rewrite Nat.add_0_r, (even_true_odd _ H8); now destruct clk0.
Qed.

(** When an evaluation aborts the process, the time advancement and the
    clock write of that half-cycle have been made but no sample of it is
    recorded, the evaluation is the last call made, and nothing happens
    afterwards. *)
Theorem abort_leaves_half_cycle_unsampled (n : nat) :
  pc (run n) = Aborted ->
  now (run n) = 5 * Z.of_nat (S (length (recorded (run n))))
  /\ clk (top (run n)) = xorb clk0 (Nat.even (length (recorded (run n))))
  /\ count is_eval (calls (run n)) = S (length (recorded (run n)))
  /\ last_call (calls (run n)) = Some CEval
  /\ (forall m, run (n + m) = run n).
Proof.
  intros Hp.
  destruct (Inv_run n) as [_ H2 H3 H4 H5 H6 _ _ _ _].
  pose proof (shape_last (Shape_run n)) as Hl.
  rewrite Hp in *. simpl in H2, H3, H4.
  split; [rewrite H5, H4; f_equal; lia|].
  split; [rewrite H6, H3, odd_add_1, Nat.negb_odd; reflexivity|].
  split; [lia|]. split.
  - destruct (last_call (calls (run n))) as [[ | | | | | | ]|];
      try discriminate; reflexivity.
  - intros m. apply run_stuck.
    destruct (run n) as [p ctx tp f l]; simpl in Hp; subst p; reflexivity.
Qed.

Lemma chain_suffix (pre l : list Call) : chain (pre ++ l) = true -> chain l = true.
Proof.
  induction pre as [|x pre IH]; [trivial|].
  intros H. apply IH.
  change ((x :: pre) ++ l) with (x :: (pre ++ l)) in H.
  destruct (pre ++ l) eqn:E; [reflexivity|].
  simpl in H. now apply andb_true_iff in H.
Qed.

(** After reading the completion flag set, the driver makes one more call
    at most, the [close] of the trace: no time advancement, clock write,
    evaluation or dump follows. *)
Theorem only_close_after_flag_set (n : nat) (pre post : list Call) :
  calls (run n) = pre ++ CGotFinish true :: post ->
  post = [] \/ post = [CClose].
Proof.
  intros E. pose proof (shape_chain (Shape_run n)) as Hc.
  rewrite E in Hc. apply chain_suffix in Hc.
  destruct post as [|b post]; [now left | right].
  simpl in Hc. apply andb_true_iff in Hc as [Hb Hc].
  destruct b; try discriminate.
  destruct post as [|b' post]; [reflexivity|].
  simpl in Hc. discriminate.
Qed.

Lemma Reads_step (c : Cfg) : Inv clk0 c -> Reads c -> Reads (step1 c).
Proof.
  destruct c as [p ctx tp f l].
  intros [_ _ _ _ _ _ H7 _ _ _]. unfold Reads, recorded; simpl in *.
  destruct p as [ | | [|] [ | | | ] | | | ? | ]; unfold step; simpl; trivial.
  all: try match goal with
       | |- context [eval ?x ?m] => destruct (eval x m) as [d fin|]
       | |- context [gotFinish ?x] => destruct (gotFinish x)
       end.
  all: unfold dump; simpl; rewrite ?H7; simpl.
  all: rewrite ?count_app, ?length_app; simpl; lia.
Qed.

(** The completion flag is read once per iteration: [k] times when the loop
    head is reached after [k] iterations ([2 * k] samples), and [k + 1]
    times, the last read included, once the loop has been left. *)
Theorem flag_read_once_per_iteration (n : nat) :
  (pc (run n) = LoopHead ->
   (2 * count is_check (calls (run n)) = length (recorded (run n)))%nat)
  /\ (left_loop (run n) = true ->
      (2 * count is_check (calls (run n)) = length (recorded (run n)) + 2)%nat).
Proof.
  assert (H : Inv clk0 (run n) /\ Reads (run n)).
  { apply run_invariant with (I := fun c => Inv clk0 c /\ Reads c).
    - split; [apply Inv_boot | split; reflexivity].
    - intros c [HI HR]. split; [now apply Inv_step | now apply Reads_step]. }
  destruct H as [_ H]. unfold Reads, left_loop in *.
  destruct (pc (run n)) as [ | | h st | | | ? | ];
    split; intros Hp; try discriminate; exact H.
Qed.

End Properties.

(** * The properties at concrete designs *)

Lemma free_running_never_finished (n : nat) :
  finished (main free_running false false tt n) = false.
Proof.
  apply (@run_invariant unit free_running false false tt
           (fun c => finished c = false)); [reflexivity|].
  intros [p [t g] tp f l]. unfold finished, step; simpl. intros ->.
  destruct p as [ | | h [ | | | ] | | | s | ]; reflexivity.
Qed.

Lemma free_running_never_aborts (n : nat) :
  pc (main free_running false false tt n) <> Aborted.
Proof.
  apply (@run_invariant unit free_running false false tt
           (fun c => pc c <> Aborted)); [discriminate|].
  intros [p ctx tp f l]. unfold step; simpl. intros Hp.
  destruct p as [ | | [|] [ | | | ] | | | s | ]; simpl;
    try discriminate; try assumption.
  destruct (gotFinish ctx); discriminate.
Qed.

(** C1 at the edge counter, which leaves the loop, and at the free-running
    design, which never does and reaches every loop head. *)
Lemma loop_exits_iff_finish_seen_witness :
  (exists n, left_loop (main (edge_counter 3) false false 0%nat n) = true)
  /\ (forall n, left_loop (main free_running false false tt n) = false)
  /\ (forall k, pc (main free_running false false tt (head k)) = LoopHead).
Proof.
  split; [|split].
  - apply (proj1 (@loop_exits_iff_finish_seen nat (edge_counter 3)
                    false false 0%nat)).
    exists 3%nat. split; vm_compute; reflexivity.
  - apply (proj1 (proj2 (@loop_exits_iff_finish_seen unit free_running
                           false false tt))).
    intros k. apply free_running_never_finished.
  - apply (proj2 (proj2 (@loop_exits_iff_finish_seen unit free_running
                           false false tt))).
    + intros k. apply free_running_never_finished.
    + apply free_running_never_aborts.
Defined.

(** C2 at the edge counter, after 17 statements. *)
Lemma time_is_five_per_advancement_witness :
  now (main (edge_counter 3) false false 0%nat 17) =
  5 * Z.of_nat (count is_inc (calls (main (edge_counter 3) false false 0%nat 17))).
Proof.
  exact (proj1 (@time_is_five_per_advancement nat (edge_counter 3)
                  false false 0%nat 17%nat)).
Defined.

(** C3 at the first two samples of the edge counter's trace. *)
Lemma clock_alternates_witness :
  clk (snap (mkSample 10 (mkTop false 1%nat))) =
  negb (clk (snap (mkSample 5 (mkTop true 1%nat)))).
Proof.
  apply (proj1 (@clock_alternates nat (edge_counter 3) false false 0%nat 32%nat)
           [] (mkSample 5 (mkTop true 1%nat)) (mkSample 10 (mkTop false 1%nat))
           [mkSample 15 (mkTop true 2%nat); mkSample 20 (mkTop false 2%nat);
            mkSample 25 (mkTop true 3%nat); mkSample 30 (mkTop false 3%nat)]).
  vm_compute. reflexivity.
Defined.

(** C4 at the edge counter: four samples after two iterations. *)
Lemma one_sample_per_evaluation_witness :
  length (recorded (main (edge_counter 3) false false 0%nat (head 2))) = 4%nat.
Proof.
  apply (proj1 (proj2 (proj2 (@one_sample_per_evaluation nat (edge_counter 3)
                                 false false 0%nat 0%nat))) 2%nat).
  vm_compute. reflexivity.
Defined.


(** C6 at the edge counter, which returns: one [open] first, one [close]
    last. *)
Lemma trace_closed_once_on_return_witness :
  exists mid,
    calls (main (edge_counter 3) false false 0%nat 32) = COpen :: mid ++ [CClose]
    /\ count is_open mid = 0%nat /\ count is_close mid = 0%nat
    /\ count is_dump mid =
       length (recorded (main (edge_counter 3) false false 0%nat 32)).
Proof.
  apply (@trace_closed_once_on_return nat (edge_counter 3) false false 0%nat 32%nat).
  vm_compute. reflexivity.
Defined.

(** C6 as stated fails: the design whose assertion fails at 15 ps ends the
    process after two samples, and the driver has made no [close] call. *)
Lemma trace_left_open_on_abort :
  ~ (forall (Design : Type)
            (eval : VerilatedContext -> Vtb_pim_system Design -> EvalResult Design)
            (finish0 clk0 : bool) (design0 : Design) (n : nat),
       let c := main eval finish0 clk0 design0 n in
       exited c = true \/ pc c = Aborted ->
       count is_close (calls c) = 1%nat /\ isOpen (tfp c) = false).
Proof.
  intros H.
  destruct (H unit (failing_assertion 15) false false tt 14%nat) as [Hc _].
  - right. vm_compute. reflexivity.
  - vm_compute in Hc. discriminate Hc.
Qed.

(** C7 at the edge counter with limit 3. *)
Lemma three_cycle_scenario_witness :
  time_progress (edge_counter 3) false false 0%nat (head 3 + 3) =
    [0; 5; 10; 15; 20; 25; 30]
  /\ length (recorded (main (edge_counter 3) false false 0%nat (head 3 + 3))) = 6%nat
  /\ map (@stamp nat) (recorded (main (edge_counter 3) false false 0%nat (head 3 + 3)))
     = [5; 10; 15; 20; 25; 30]
  /\ map (fun s => clk (snap s))
         (recorded (main (edge_counter 3) false false 0%nat (head 3 + 3)))
     = [negb false; false; negb false; false; negb false; false]
  /\ pc (main (edge_counter 3) false false 0%nat (head 3 + 3)) = Exited 0
  /\ (forall m, main (edge_counter 3) false false 0%nat (head 3 + 3 + m) =
                main (edge_counter 3) false false 0%nat (head 3 + 3)).
Proof.
  apply (@three_cycle_scenario nat (edge_counter 3) false false 0%nat);
    vm_compute; reflexivity.
Defined.

(** C9 at the edge counter once it has returned. *)
Lemma finish_checked_at_cycle_boundaries_witness :
  exists k,
    length (recorded (main (edge_counter 3) false false 0%nat 32)) = (2 * k)%nat
    /\ now (main (edge_counter 3) false false 0%nat 32) = 10 * Z.of_nat k.
Proof.
  apply (proj2 (@finish_checked_at_cycle_boundaries nat (edge_counter 3)
                  false false 0%nat 32%nat)).
  vm_compute. reflexivity.
Defined.

(** C10 at the edge counter's first sample. *)
Lemma samples_start_at_one_quantum_witness :
  stamp (mkSample 5 (mkTop true 1%nat)) = 5.
Proof.
  apply (proj1 (@samples_start_at_one_quantum nat (edge_counter 3)
                  false false 0%nat 32%nat)).
  vm_compute. reflexivity.
Defined.

(** The edge counter returns 0 with the flag set and the trace closed. *)
Lemma returns_zero_with_flag_set_witness :
  0 = 0
  /\ finished (main (edge_counter 3) false false 0%nat 32) = true
  /\ isOpen (tfp (main (edge_counter 3) false false 0%nat 32)) = false.
Proof.
  apply (@returns_zero_with_flag_set nat (edge_counter 3) false false 0%nat
           32%nat 0).
  vm_compute. reflexivity.
Defined.

(** The third sample of the edge counter's trace. *)
Lemma sample_closed_form_witness :
  stamp (mkSample 15 (mkTop true 2%nat)) = 5 * Z.of_nat 3
  /\ clk (snap (mkSample 15 (mkTop true 2%nat))) = xorb false (Nat.even 2).
Proof.
  apply (@sample_closed_form nat (edge_counter 3) false false 0%nat
           32%nat 2%nat).
  vm_compute. reflexivity.
Defined.

(** The edge counter's clock at its third loop head. *)
Lemma clock_rests_at_reset_level_witness :
  clk (top (main (edge_counter 3) false false 0%nat (head 2))) = false.
Proof.
  apply (@clock_rests_at_reset_level nat (edge_counter 3) false false 0%nat).
  left. vm_compute. reflexivity.
Defined.

(** The design whose assertion fails at 15 ps: aborted in its third
    half-cycle with two samples recorded. *)
Lemma abort_leaves_half_cycle_unsampled_witness :
  now (main (failing_assertion 15) false false tt 14) =
    5 * Z.of_nat (S (length (recorded (main (failing_assertion 15) false false tt 14))))
  /\ clk (top (main (failing_assertion 15) false false tt 14)) =
     xorb false
       (Nat.even (length (recorded (main (failing_assertion 15) false false tt 14))))
  /\ count is_eval (calls (main (failing_assertion 15) false false tt 14)) =
     S (length (recorded (main (failing_assertion 15) false false tt 14)))
  /\ last_call (calls (main (failing_assertion 15) false false tt 14)) = Some CEval
  /\ (forall m, main (failing_assertion 15) false false tt (14 + m) =
                main (failing_assertion 15) false false tt 14).
Proof.
  apply (@abort_leaves_half_cycle_unsampled unit (failing_assertion 15)
           false false tt 14%nat).
  vm_compute. reflexivity.
Defined.

(** A run that finds the flag set at once: only [close] follows the read. *)
Lemma only_close_after_flag_set_witness :
  [CClose] = [] \/ [CClose] = [CClose].
Proof.
  apply (@only_close_after_flag_set nat (edge_counter 3) true false 0%nat
           4%nat [COpen] [CClose]).
  vm_compute. reflexivity.
Defined.

(** The edge counter has read the flag four times when it has returned with
    six samples. *)
Lemma flag_read_once_per_iteration_witness :
  (2 * count is_check (calls (main (edge_counter 3) false false 0%nat 32)) =
   length (recorded (main (edge_counter 3) false false 0%nat 32)) + 2)%nat.
Proof.
  apply (proj2 (@flag_read_once_per_iteration nat (edge_counter 3)
                  false false 0%nat 32%nat)).
  vm_compute. reflexivity.
Defined.
